(** * The libp2p Noise handshake driver ([src/handshake.ts])

    A shallow embedding of the [Handshake] class: the three wire stages
    [propose], [exchange], [finish] and the post-handshake [encrypt] and
    [decrypt].  The class is a thin driver around collaborators it imports
    (the XX pattern of [./xx], the payload helpers of [./utils], the framed
    connection of [./noise]); they are kept abstract here, and every call
    the driver makes to one of them is recorded, with its arguments, in a
    call log, so that statements can speak about what the driver hands to
    its collaborators and in which order. *)

From stdpp Require Import base option list strings gmap.
From Stdlib.Strings Require Import Byte.

Set Default Proof Using "Type".

(** ** Plain data *)

(** [bytes] of [./@types/basic]: a Node [Buffer]. *)
Definition bytes : Type := list byte.

(** [Buffer.alloc(0)]. *)
Definition Buffer_alloc0 : bytes := [].

(** [buf.slice()] with no argument: the whole content. *)
Definition slice (b : bytes) : bytes := b.

(** [KeyPair] of [./@types/libp2p]. *)
Record KeyPair : Type := { publicKey : bytes; privateKey : bytes }.

(** [type handshakeType = "XX"]. *)
Inductive handshakeType : Type := XX.

(** What a rejected promise or a [throw] carries.  [handshake.ts] itself
    throws one thing, a plain [Error] with a message; the other
    constructors are the error kinds its collaborators raise, and
    [InvalidReference] is what the model answers when asked to follow a
    reference that names no object (no JavaScript value does that). *)
Inductive Error : Type :=
| JsError (message : string)
| AuthenticationFailure
| SignatureVerificationFailure
| MalformedMessage
| NonceOverflow
| InvalidReference.

(** The error of [getCS]. *)
Definition HandshakeIncomplete : Error :=
  JsError "Handshake not completed properly, cipher state does not exist.".

(** How a call ends: it returns, it throws (or its promise rejects), or
    the promise it awaits never settles. *)
Inductive Outcome (A : Type) : Type :=
| Return (a : A)
| Throw (e : Error)
| Pending.
Arguments Return {A} a.
Arguments Throw {A} e.
Arguments Pending {A}.

Definition returned {A} (o : Outcome A) : bool :=
  match o with Return _ => true | _ => false end.

(** Object references: sessions and cipher states are JavaScript objects,
    shared by reference between the driver, its caller and [./xx]. *)
Definition sref : Type := nat.
Definition cref : Type := nat.

Declare Scope js_scope.

Section Driver.

(** The types owned by the collaborators. *)
Context {HandshakeState CipherState MessageBuffer Conn : Type}.

(** [NoiseSession] of [./xx].  The driver reads [cs1] and [cs2] only;
    [hs] stands for everything else the session carries. *)
Record NoiseSession : Type := {
  hs : HandshakeState;
  cs1 : option cref;
  cs2 : option cref
}.

(** The object store. *)
Record Heap : Type := {
  sessions : gmap sref NoiseSession;
  ciphers : gmap cref CipherState
}.

(** The methods of [XXHandshake] the driver calls.  Those that receive a
    session may change the store; [encryptWithAd] and [decryptWithAd]
    receive one cipher state object and may change that object. *)
Record XXHandshake : Type := {
  initSession : bool → bytes → KeyPair → bytes → Heap → Outcome sref * Heap;
  sendMessage : sref → bytes → Heap → Outcome MessageBuffer * Heap;
  recvMessage : sref → MessageBuffer → Heap → Outcome bytes * Heap;
  encryptWithAd : CipherState → bytes → bytes → Outcome bytes * CipherState;
  decryptWithAd : CipherState → bytes → bytes → Outcome bytes * CipherState
}.

(** The methods of [WrappedConnection] the driver calls.  [readLP] is
    awaited; [writeLP] is a plain call, which returns or throws. *)
Record WrappedConnection : Type := {
  readLP : Conn → Outcome bytes * Conn;
  writeLP : bytes → Conn → Outcome unit * Conn
}.

(** The functions imported from [./utils] ([logger] apart), as
    functions of their arguments.  [createHandshakePayload] returns a
    promise, which the driver awaits: it may resolve to the payload,
    reject, or never settle. *)
Record Utils : Type := {
  signPayload : bytes → bytes → bytes;
  getHandshakePayload : bytes → bytes;
  createHandshakePayload : bytes → bytes → option bytes → option bytes → Outcome bytes;
  encodeMessageBuffer : MessageBuffer → bytes;
  decodeMessageBuffer : bytes → MessageBuffer
}.

(** The fields of the class. *)
Record Handshake : Type := {
  isInitiator : bool;
  type : handshakeType;
  remotePublicKey : bytes;
  prologue : bytes;
  staticKeys : KeyPair;
  connection : WrappedConnection;
  xx : XXHandshake
}.

(** One entry of the call log per call to a collaborator. *)
Inductive Call : Type :=
| CInitSession (initiator : bool) (prologue : bytes) (s : KeyPair) (rs : bytes)
| CSendMessage (session : sref) (message : bytes)
| CRecvMessage (session : sref) (message : MessageBuffer)
| CEncryptWithAd (cs : cref) (ad plaintext : bytes)
| CDecryptWithAd (cs : cref) (ad ciphertext : bytes)
| CGetHandshakePayload (publicKey : bytes)
| CSignPayload (privateKey message : bytes)
| CCreateHandshakePayload (libp2pPublicKey signedPayload : bytes)
    (earlyData libp2pPrivateKey : option bytes)
| CEncodeMessageBuffer (message : MessageBuffer)
| CDecodeMessageBuffer (message : bytes)
| CReadLP
| CWriteLP (data : bytes)
| CLogger (line : string).

(** Everything a method can touch: the [Handshake] object it is called
    on, the store, the state of the connection, and the call log. *)
Record World : Type := {
  self : Handshake;
  heap : Heap;
  wire : Conn;
  calls : list Call
}.

Definition set_self (h : Handshake) (w : World) : World :=
  {| self := h; heap := heap w; wire := wire w; calls := calls w |}.
Definition set_heap (hp : Heap) (w : World) : World :=
  {| self := self w; heap := hp; wire := wire w; calls := calls w |}.
Definition set_wire (c : Conn) (w : World) : World :=
  {| self := self w; heap := heap w; wire := c; calls := calls w |}.
Definition record (c : Call) (w : World) : World :=
  {| self := self w; heap := heap w; wire := wire w; calls := calls w ++ [c] |}.
Definition set_cipher (c : cref) (st : CipherState) (hp : Heap) : Heap :=
  {| sessions := sessions hp; ciphers := <[c := st]> (ciphers hp) |}.

(** ** The monad of method bodies *)

Definition M (A : Type) : Type := World → Outcome A * World.

Definition ret {A} (a : A) : M A := λ w, (Return a, w).

(** Sequencing: what follows an [await] or a statement runs only if it
    returned; the changes made so far stay. *)
Definition bind {A B} (m : M A) (f : A → M B) : M B := λ w,
  match m w with
  | (Return a, w') => f a w'
  | (Throw e, w') => (Throw e, w')
  | (Pending, w') => (Pending, w')
  end.

Notation "x ← y ; z" := (bind y (λ x, z))
  (at level 20, y at level 100, z at level 200, only parsing) : js_scope.
Notation "x ;; z" := (bind x (λ _, z))
  (at level 100, z at level 200, only parsing, right associativity) : js_scope.
Local Open Scope js_scope.

Definition throw {A} (e : Error) : M A := λ w, (Throw e, w).

(** Awaiting a promise that touches nothing the driver holds. *)
Definition settle {A} (o : Outcome A) : M A := λ w, (o, w).

(** [this.f] *)
Definition field {A} (f : Handshake → A) : M A := λ w, (Return (f (self w)), w).

(** Reading a property of a session object. *)
Definition deref (session : sref) : M NoiseSession := λ w,
  match sessions (heap w) !! session with
  | Some ns => (Return ns, w)
  | None => (Throw InvalidReference, w)
  end.

Definition call (c : Call) : M unit := λ w, (Return tt, record c w).

(** A call into [./xx] that receives the store. *)
Definition on_heap {A} (c : Call) (f : Heap → Outcome A * Heap) : M A := λ w,
  let w1 := record c w in
  let '(r, hp) := f (heap w1) in (r, set_heap hp w1).

(** A call into [./xx] that receives one cipher state object. *)
Definition on_cipher {A} (c : Call) (cs : cref)
    (f : CipherState → Outcome A * CipherState) : M A := λ w,
  let w1 := record c w in
  match ciphers (heap w1) !! cs with
  | Some st => let '(r, st') := f st in (r, set_heap (set_cipher cs st' (heap w1)) w1)
  | None => (Throw InvalidReference, w1)
  end.

(** A call to a method of the connection. *)
Definition on_wire {A} (c : Call) (f : Conn → Outcome A * Conn) : M A := λ w,
  let w1 := record c w in
  let '(r, c') := f (wire w1) in (r, set_wire c' w1).

(** The imports from [./utils]. *)
Context (utils : Utils).

Definition logger (line : string) : M unit := call (CLogger line).

Definition do_getHandshakePayload (pk : bytes) : M bytes :=
  call (CGetHandshakePayload pk);; ret (getHandshakePayload utils pk).

Definition do_signPayload (sk message : bytes) : M bytes :=
  call (CSignPayload sk message);; ret (signPayload utils sk message).

Definition do_createHandshakePayload (pk signedPayload : bytes)
    (earlyData sk : option bytes) : M bytes :=
  call (CCreateHandshakePayload pk signedPayload earlyData sk);;
  settle (createHandshakePayload utils pk signedPayload earlyData sk).

Definition do_encodeMessageBuffer (m : MessageBuffer) : M bytes :=
  call (CEncodeMessageBuffer m);; ret (encodeMessageBuffer utils m).

Definition do_decodeMessageBuffer (b : bytes) : M MessageBuffer :=
  call (CDecodeMessageBuffer b);; ret (decodeMessageBuffer utils b).

(** [this.connection.readLP()] and [this.connection.writeLP(data)]. *)
Definition do_readLP : M bytes :=
  conn ← field connection; on_wire CReadLP (readLP conn).

Definition do_writeLP (data : bytes) : M unit :=
  conn ← field connection;
  on_wire (CWriteLP data) (writeLP conn data).

(** [this.xx.m(...)]. *)
Definition do_initSession (i : bool) (p : bytes) (s : KeyPair) (rs : bytes) : M sref :=
  x ← field xx; on_heap (CInitSession i p s rs) (initSession x i p s rs).

Definition do_sendMessage (session : sref) (message : bytes) : M MessageBuffer :=
  x ← field xx; on_heap (CSendMessage session message) (sendMessage x session message).

Definition do_recvMessage (session : sref) (message : MessageBuffer) : M bytes :=
  x ← field xx; on_heap (CRecvMessage session message) (recvMessage x session message).

Definition do_encryptWithAd (cs : cref) (ad plaintext : bytes) : M bytes :=
  x ← field xx; on_cipher (CEncryptWithAd cs ad plaintext) cs (λ st, encryptWithAd x st ad plaintext).

Definition do_decryptWithAd (cs : cref) (ad ciphertext : bytes) : M bytes :=
  x ← field xx; on_cipher (CDecryptWithAd cs ad ciphertext) cs (λ st, decryptWithAd x st ad ciphertext).

(** ** The class *)

(** The constructor; [new_xx] is [new XXHandshake()]. *)
Definition constructor (new_xx : XXHandshake) (ty : handshakeType) (initiator : bool)
    (rpk : bytes) (pro : bytes) (sk : KeyPair) (conn : WrappedConnection)
    (handshake : option XXHandshake) : Handshake :=
  {| type := ty;
     isInitiator := initiator;
     remotePublicKey := rpk;
     prologue := pro;
     staticKeys := sk;
     connection := conn;
     xx := default new_xx handshake |}.

(** Stage 0. *)
Definition propose (earlyData : option bytes) : M sref :=
  i ← field isInitiator;
  p ← field prologue;
  s ← field staticKeys;
  rs ← field remotePublicKey;
  ns ← do_initSession i p s rs;
  i ← field isInitiator;
  (if i then
     sk ← field (privateKey ∘ staticKeys);
     pk ← field (publicKey ∘ staticKeys);
     message ← do_getHandshakePayload pk;
     signedPayload ← do_signPayload sk message;
     pk ← field (publicKey ∘ staticKeys);
     sk ← field (privateKey ∘ staticKeys);
     handshakePayload ← do_createHandshakePayload pk signedPayload earlyData (Some sk);
     messageBuffer ← do_sendMessage ns handshakePayload;
     data ← do_encodeMessageBuffer messageBuffer;
     do_writeLP data;;
     logger "Stage 0 - Initiator finished proposing"
   else
     received ← do_readLP;
     let receivedMessageBuffer := slice received in
     message ← do_decodeMessageBuffer receivedMessageBuffer;
     plaintext ← do_recvMessage ns message;
     logger "Stage 0 - Responder received proposed message.");;
  ret ns.

(** Stage 1. *)
Definition exchange (session : sref) : M unit :=
  i ← field isInitiator;
  if i then
    received ← do_readLP;
    let receivedMessageBuffer := slice received in
    message ← do_decodeMessageBuffer receivedMessageBuffer;
    plaintext ← do_recvMessage session message;
    logger "Stage 1 - Initiator received the message."
  else
    sk ← field (privateKey ∘ staticKeys);
    pk ← field (publicKey ∘ staticKeys);
    message ← do_getHandshakePayload pk;
    signedPayload ← do_signPayload sk message;
    rpk ← field remotePublicKey;
    handshakePayload ← do_createHandshakePayload rpk signedPayload None None;
    messageBuffer ← do_sendMessage session handshakePayload;
    data ← do_encodeMessageBuffer messageBuffer;
    do_writeLP data;;
    logger "Stage 1 - Responder sent the message.".

(** Stage 2. *)
Definition finish (session : sref) : M unit :=
  i ← field isInitiator;
  if i then
    messageBuffer ← do_sendMessage session Buffer_alloc0;
    data ← do_encodeMessageBuffer messageBuffer;
    do_writeLP data;;
    logger "Stage 2 - Initiator sent message."
  else
    received ← do_readLP;
    let receivedMessageBuffer := slice received in
    message ← do_decodeMessageBuffer receivedMessageBuffer;
    plaintext ← do_recvMessage session message;
    logger "Stage 2 - Responder received the message, finished handshake.".

(** [getCS(session, encryption = true)].  An object is truthy and
    [undefined] is falsy, so [!session.cs1 || !session.cs2] is the
    case where one of the two is absent. *)
Definition getCS (session : sref) (encryption : bool) : M cref :=
  ns ← deref session;
  match cs1 ns, cs2 ns with
  | Some c1, Some c2 =>
      i ← field isInitiator;
      if i then ret (if encryption then c1 else c2)
      else ret (if encryption then c2 else c1)
  | _, _ => throw HandshakeIncomplete
  end.

Definition encrypt (plaintext : bytes) (session : sref) : M bytes :=
  cs ← getCS session true;
  do_encryptWithAd cs Buffer_alloc0 plaintext.

Definition decrypt (ciphertext : bytes) (session : sref) : M bytes :=
  cs ← getCS session false;
  do_decryptWithAd cs Buffer_alloc0 ciphertext.

End Driver.

Arguments NoiseSession : clear implicits.
Arguments Heap : clear implicits.
Arguments XXHandshake : clear implicits.
Arguments WrappedConnection : clear implicits.
Arguments Utils : clear implicits.
Arguments Handshake : clear implicits.
Arguments Call : clear implicits.
Arguments World : clear implicits.
Arguments M : clear implicits.

(** ** Reading the call log *)

Section Observations.

Context {HandshakeState CipherState MessageBuffer Conn : Type}.
Context (utils : Utils MessageBuffer).

Abbreviation World := (World HandshakeState CipherState MessageBuffer Conn).
Abbreviation Call := (Call MessageBuffer).

(** The calls made between two worlds, oldest first. *)
Definition calls_since (w w' : World) : list Call :=
  drop (length (calls w)) (calls w').

(** The calls a method body makes when started in [w]. *)
Definition calls_of {A} (m : M HandshakeState CipherState MessageBuffer Conn A)
    (w : World) : list Call :=
  calls_since w (m w).2.

Definition is_read (c : Call) : bool :=
  match c with CReadLP => true | _ => false end.

Definition is_write (c : Call) : bool :=
  match c with CWriteLP _ => true | _ => false end.

Definition is_send (c : Call) : bool :=
  match c with CSendMessage _ _ => true | _ => false end.

(** The length-framed transport operations among some calls. *)
Definition transport_ops (l : list Call) : list Call :=
  List.filter (λ c, is_read c || is_write c) l.

(** The three wire stages, as one type. *)
Inductive Stage : Type :=
| Propose (earlyData : option bytes)
| Exchange (session : sref)
| Finish (session : sref).

Definition stage_number (st : Stage) : nat :=
  match st with Propose _ => 0 | Exchange _ => 1 | Finish _ => 2 end.

Definition run_stage (st : Stage) : M HandshakeState CipherState MessageBuffer Conn unit :=
  match st with
  | Propose earlyData => bind (propose utils earlyData) (λ _, ret tt)
  | Exchange session => exchange utils session
  | Finish session => finish utils session
  end.

(** Who writes at which stage: the initiator on even stages, the
    responder on odd ones. *)
Definition writes_at (initiator : bool) (n : nat) : bool :=
  if initiator then Nat.even n else Nat.odd n.

(** The five public methods, as one type, and the world each leaves. *)
Inductive Method : Type :=
| MPropose (earlyData : option bytes)
| MExchange (session : sref)
| MFinish (session : sref)
| MEncrypt (plaintext : bytes) (session : sref)
| MDecrypt (ciphertext : bytes) (session : sref).

Definition world_after (m : Method) (w : World) : World :=
  match m with
  | MPropose earlyData => (propose utils earlyData w).2
  | MExchange session => (exchange utils session w).2
  | MFinish session => (finish utils session w).2
  | MEncrypt plaintext session => (encrypt plaintext session w).2
  | MDecrypt ciphertext session => (decrypt ciphertext session w).2
  end.

(** The outcome of a body that ends with [return b] after a step. *)
Definition after {A B} (o : Outcome A) (b : B) : Outcome B :=
  match o with
  | Return _ => Return b
  | Throw e => Throw e
  | Pending => Pending
  end.

(** The identity payload a peer is expected to send: its own static
    public key with the signature, under its static private key, over
    the encoding of that key; it is what [createHandshakePayload]
    resolves to on them. *)
Definition own_signature (h : Handshake HandshakeState CipherState MessageBuffer Conn) : bytes :=
  signPayload utils (privateKey (staticKeys h))
    (getHandshakePayload utils (publicKey (staticKeys h))).

Definition own_identity_payload (h : Handshake HandshakeState CipherState MessageBuffer Conn)
    (earlyData libp2pPrivateKey : option bytes) : Outcome bytes :=
  createHandshakePayload utils (publicKey (staticKeys h)) (own_signature h)
    earlyData libp2pPrivateKey.

(** The calls that follow [sendMessage] in a writing branch, given how
    [sendMessage] ended: the message is encoded and written, and the
    line is logged if the write returned. *)
Definition calls_after_send (w : World) (sent : Outcome MessageBuffer) (line : string)
    : list Call :=
  match sent with
  | Return m =>
      CEncodeMessageBuffer m
      :: CWriteLP (encodeMessageBuffer utils m)
      :: match (writeLP (connection (self w)) (encodeMessageBuffer utils m) (wire w)).1 with
         | Return _ => [CLogger line]
         | _ => []
         end
  | _ => []
  end.

(** *** Readings of the stages that the driver does not follow *)

(** Message 3 carrying the initiator's identity: the payload [finish]
    hands to [sendMessage] is the initiator's own identity payload, its
    static public key with the signature over it. *)
Definition finish_attaches_identity (session : sref) (w : World) : Prop :=
  ∃ earlyData libp2pPrivateKey payload,
    own_identity_payload (self w) earlyData libp2pPrivateKey = Return payload
    ∧ CSendMessage session payload ∈ calls_of (finish utils session) w.

(** Every call to a stage making exactly one transport operation. *)
Definition makes_one_transport_operation (st : Stage) (w : World) : Prop :=
  length (transport_ops (calls_of (run_stage st) w)) = 1.

(** Message 2 being checked on receipt: on the initiator's side,
    whenever the payload that [recvMessage] returns fails the signature
    check [valid], [exchange] fails with [SignatureVerificationFailure]. *)
Definition exchange_verifies_identity (valid : bytes → bool) (session : sref)
    (w : World) : Prop :=
  ∀ received c payload hp,
    isInitiator (self w) = true →
    readLP (connection (self w)) (wire w) = (Return received, c) →
    recvMessage (xx (self w)) session (decodeMessageBuffer utils (slice received)) (heap w)
      = (Return payload, hp) →
    valid payload = false →
    (exchange utils session w).1 = Throw SignatureVerificationFailure.

End Observations.

(** ** Callers, and variations of the object *)

Section Variations.

Context {HandshakeState CipherState MessageBuffer Conn : Type}.
Context (utils : Utils MessageBuffer).

Abbreviation World := (World HandshakeState CipherState MessageBuffer Conn).
Abbreviation Call := (Call MessageBuffer).
Abbreviation Handshake := (Handshake HandshakeState CipherState MessageBuffer Conn).
Abbreviation XXHandshake := (XXHandshake HandshakeState CipherState MessageBuffer).

(** A caller that makes one call after the other on the same object,
    carrying on whatever the outcome of each. *)
Fixpoint run_methods (ms : list Method) (w : World) : World :=
  match ms with
  | [] => w
  | m :: ms' => run_methods ms' (world_after utils m w)
  end.

(** What a call leaves for everyone but the object it was made on. *)
Definition observe {A} (r : Outcome A * World)
    : Outcome A * Heap HandshakeState CipherState * Conn * list Call :=
  (r.1, heap r.2, wire r.2, calls r.2).

(** The same [XXHandshake], except that the plaintext [recvMessage]
    returns is passed through [g]. *)
Definition with_plaintext (g : bytes → bytes) (x : XXHandshake) : XXHandshake :=
  {| initSession := initSession x;
     sendMessage := sendMessage x;
     recvMessage := λ session message hp,
       match recvMessage x session message hp with
       | (Return plaintext, hp') => (Return (g plaintext), hp')
       | other => other
       end;
     encryptWithAd := encryptWithAd x;
     decryptWithAd := decryptWithAd x |}.

Definition set_xx (x : XXHandshake) (h : Handshake) : Handshake :=
  {| isInitiator := isInitiator h;
     type := type h;
     remotePublicKey := remotePublicKey h;
     prologue := prologue h;
     staticKeys := staticKeys h;
     connection := connection h;
     xx := x |}.

(** Two objects with the same role, connection and [XXHandshake]; they
    may differ in [type], [prologue], [staticKeys], [remotePublicKey]. *)
Definition same_wiring (h h' : Handshake) : Prop :=
  isInitiator h = isInitiator h' ∧ connection h = connection h' ∧ xx h = xx h'.

(** The session a stage works on: the one [initSession] makes, for
    [propose]; the one it is given, for the others. *)
Definition stage_session (st : Stage) (w : World) : Outcome sref :=
  match st with
  | Propose _ =>
      (initSession (xx (self w)) (isInitiator (self w)) (prologue (self w))
         (staticKeys (self w)) (remotePublicKey (self w)) (heap w)).1
  | Exchange session | Finish session => Return session
  end.

(** What a call into [./xx] made during a stage is allowed to be. *)
Definition xx_call_fits (st : Stage) (w : World) (c : Call) : Prop :=
  let writer := writes_at (isInitiator (self w)) (stage_number st) in
  match c with
  | CInitSession _ _ _ _ => stage_number st = 0
  | CSendMessage session _ => writer = true ∧ stage_session st w = Return session
  | CRecvMessage session _ => writer = false ∧ stage_session st w = Return session
  | CEncryptWithAd _ _ _ | CDecryptWithAd _ _ _ => False
  | _ => True
  end.

(** A caller that runs the three stages in order, handing to [exchange]
    and [finish] the session [propose] returned, and stops at the first
    stage that does not return. *)
Definition three_stages (earlyData : option bytes)
    : M HandshakeState CipherState MessageBuffer Conn sref :=
  bind (propose utils earlyData) (λ session,
  bind (exchange utils session) (λ _,
  bind (finish utils session) (λ _,
  ret session))).

(** The directions of the three transport operations of a peer: [true]
    for a write, [false] for a read. *)
Definition turns (initiator : bool) : list bool :=
  [writes_at initiator 0; writes_at initiator 1; writes_at initiator 2].

Definition is_message (c : Call) : bool :=
  match c with CSendMessage _ _ | CRecvMessage _ _ => true | _ => false end.

Definition is_log (c : Call) : bool :=
  match c with CLogger _ => true | _ => false end.

End Variations.

(** ** A small instance of the collaborators

    Enough of [./xx], [./utils] and the connection to run the driver on
    concrete inputs: messages travel in the clear, a session counts the
    messages it has processed and splits at the third. *)

Module Toy.

Record Cipher : Type := { k : bytes; n : nat }.

Record Wire : Type := { incoming : list bytes; outgoing : list bytes }.

Abbreviation Session := (NoiseSession nat).
Abbreviation Store := (Heap nat Cipher).

Definition fresh_session : Session := {| hs := 0; cs1 := None; cs2 := None |}.

Definition toy_initSession (i : bool) (p : bytes) (s : KeyPair) (rs : bytes)
    (hp : Store) : Outcome sref * Store :=
  let r := size (sessions hp) in
  (Return r, {| sessions := <[r := fresh_session]> (sessions hp); ciphers := ciphers hp |}).

(** One handshake message processed: the counter goes up; the third
    message creates the two cipher states; a fourth is refused. *)
Definition advance (session : sref) (hp : Store) : Outcome unit * Store :=
  match sessions hp !! session with
  | None => (Throw InvalidReference, hp)
  | Some ns =>
      if hs ns <? 2 then
        (Return tt,
         {| sessions := <[session := {| hs := S (hs ns); cs1 := cs1 ns; cs2 := cs2 ns |}]> (sessions hp);
            ciphers := ciphers hp |})
      else if hs ns =? 2 then
        let c := size (ciphers hp) in
        (Return tt,
         {| sessions := <[session := {| hs := 3; cs1 := Some c; cs2 := Some (S c) |}]> (sessions hp);
            ciphers := <[S c := {| k := [x02]; n := 0 |}]> (<[c := {| k := [x01]; n := 0 |}]> (ciphers hp)) |})
      else (Throw (JsError "Session invalid."), hp)
  end.

Definition toy_sendMessage (session : sref) (message : bytes) (hp : Store)
    : Outcome bytes * Store :=
  match advance session hp with
  | (Return _, hp') => (Return message, hp')
  | (Throw e, hp') => (Throw e, hp')
  | (Pending, hp') => (Pending, hp')
  end.

Definition toy_recvMessage (session : sref) (message : bytes) (hp : Store)
    : Outcome bytes * Store :=
  toy_sendMessage session message hp.

Definition toy_crypt (st : Cipher) (ad text : bytes) : Outcome bytes * Cipher :=
  (Return text, {| k := k st; n := S (n st) |}).

Definition toy_xx : XXHandshake nat Cipher bytes :=
  {| initSession := toy_initSession;
     sendMessage := toy_sendMessage;
     recvMessage := toy_recvMessage;
     encryptWithAd := toy_crypt;
     decryptWithAd := toy_crypt |}.

Definition toy_connection : WrappedConnection Wire :=
  {| readLP := λ c,
       match incoming c with
       | m :: rest => (Return m, {| incoming := rest; outgoing := outgoing c |})
       | [] => (Pending, c)
       end;
     writeLP := λ data c,
       (Return tt, {| incoming := incoming c; outgoing := outgoing c ++ [data] |}) |}.

(** Keys are two bytes long; the public key is the private key read
    backwards, and a signature is the public key followed by the
    signed message. *)
Definition toy_public (sk : bytes) : bytes := rev sk.

Definition toy_sign (sk message : bytes) : bytes := toy_public sk ++ message.

Fixpoint bytes_eqb (a b : bytes) : bool :=
  match a, b with
  | [], [] => true
  | x :: a', y :: b' => Byte.eqb x y && bytes_eqb a' b'
  | _, _ => false
  end.

Definition toy_verify (pk message signature : bytes) : bool :=
  bytes_eqb signature (pk ++ message).

Definition domain_prefix : bytes := String.list_byte_of_string "noise-libp2p-static-key:".

Definition toy_utils : Utils bytes :=
  {| signPayload := toy_sign;
     getHandshakePayload := λ pk, domain_prefix ++ pk;
     createHandshakePayload := λ pk sig earlyData _,
       Return (pk ++ sig ++ default [] earlyData);
     encodeMessageBuffer := λ m, m;
     decodeMessageBuffer := λ b, b |}.

(** The receiving side of the toy payload: the identity key is the
    first two bytes, and the signature (no early data) is the rest; it
    must verify, under the identity key, over the encoding of that key. *)
Definition payload_signature_ok (payload : bytes) : bool :=
  let pk := take 2 payload in
  toy_verify pk (getHandshakePayload toy_utils pk) (drop 2 payload).

Abbreviation World := (World nat Cipher bytes Wire).

Definition alice : KeyPair := {| publicKey := [x02; x01]; privateKey := [x01; x02] |}.
Definition bob : KeyPair := {| publicKey := [x04; x03]; privateKey := [x03; x04] |}.

Definition peer (initiator : bool) (keys : KeyPair) (remote : bytes)
    : Handshake nat Cipher bytes Wire :=
  constructor toy_xx XX initiator remote [] keys toy_connection None.

Definition empty_heap : Store := {| sessions := ∅; ciphers := ∅ |}.

(** A peer before stage 0, with the messages still to be read. *)
Definition start (initiator : bool) (keys : KeyPair) (remote : bytes)
    (inbox : list bytes) : World :=
  {| self := peer initiator keys remote;
     heap := empty_heap;
     wire := {| incoming := inbox; outgoing := [] |};
     calls := [] |}.

(** A peer holding session [0] after [processed] handshake messages. *)
Definition midway (initiator : bool) (keys : KeyPair) (remote : bytes)
    (processed : nat) (inbox : list bytes) : World :=
  {| self := peer initiator keys remote;
     heap := {| sessions := {[ 0 := {| hs := processed; cs1 := None; cs2 := None |} ]};
                ciphers := ∅ |};
     wire := {| incoming := inbox; outgoing := [] |};
     calls := [] |}.

(** A peer holding the completed session [0]. *)
Definition completed (initiator : bool) : World :=
  {| self := peer initiator alice (publicKey bob);
     heap := {| sessions := {[ 0 := {| hs := 3; cs1 := Some 0; cs2 := Some 1 |} ]};
                ciphers := <[1 := {| k := [x02]; n := 0 |}]> {[ 0 := {| k := [x01]; n := 0 |} ]} |};
     wire := {| incoming := []; outgoing := [] |};
     calls := [] |}.

(** A well-formed message 2 payload of [bob], and one whose signature
    was made over another key. *)
Definition good_payload : bytes :=
  publicKey bob ++ toy_sign (privateKey bob) (domain_prefix ++ publicKey bob).

Definition forged_payload : bytes :=
  publicKey bob ++ toy_sign (privateKey bob) (domain_prefix ++ publicKey alice).

(** The initiator's whole handshake, then one [encrypt]. *)
Definition initiator_run (plaintext : bytes) : M nat Cipher bytes Wire bytes :=
  bind (propose toy_utils None) (λ ns,
  bind (exchange toy_utils ns) (λ _,
  bind (finish toy_utils ns) (λ _,
  encrypt plaintext ns))).

(** An [XXHandshake] that cannot make a session. *)
Definition broken_xx : XXHandshake nat Cipher bytes :=
  {| initSession := λ _ _ _ _ hp, (Throw (JsError "no session"), hp);
     sendMessage := toy_sendMessage;
     recvMessage := toy_recvMessage;
     encryptWithAd := toy_crypt;
     decryptWithAd := toy_crypt |}.

Definition start_broken (initiator : bool) (inbox : list bytes) : World :=
  {| self := constructor toy_xx XX initiator [] [] alice toy_connection (Some broken_xx);
     heap := empty_heap;
     wire := {| incoming := inbox; outgoing := [] |};
     calls := [] |}.

(** A connection that reads like [toy_connection] and refuses every
    write. *)
Definition closed_connection : WrappedConnection Wire :=
  {| readLP := readLP toy_connection;
     writeLP := λ data c, (Throw (JsError "stream closed"), c) |}.

(** The initiator holding session [0] after [processed] messages, on the
    connection that refuses writes. *)
Definition midway_closed (processed : nat) : World :=
  {| self := constructor toy_xx XX true [] [] alice closed_connection None;
     heap := {| sessions := {[ 0 := {| hs := processed; cs1 := None; cs2 := None |} ]};
                ciphers := ∅ |};
     wire := {| incoming := []; outgoing := [] |};
     calls := [] |}.

End Toy.

(** * Properties of the driver *)

Section Properties.

Context {HandshakeState CipherState MessageBuffer Conn : Type}.
Context (utils : Utils MessageBuffer).

Abbreviation World := (World HandshakeState CipherState MessageBuffer Conn).
Abbreviation Call := (Call MessageBuffer).

Implicit Types (w : World) (session : sref) (earlyData : option bytes).

(** Unfolding a method body down to the collaborators' calls. *)
Ltac unfold_driver :=
  unfold world_after, run_stage, calls_of, calls_since,
    propose, exchange, finish, encrypt, decrypt, getCS,
    do_initSession, do_sendMessage, do_recvMessage,
    do_encryptWithAd, do_decryptWithAd, do_readLP, do_writeLP,
    do_getHandshakePayload, do_signPayload, do_createHandshakePayload,
    do_encodeMessageBuffer, do_decodeMessageBuffer, logger,
    on_heap, on_wire, on_cipher, call, deref, field, throw, settle, bind, ret,
    set_heap, set_wire, set_cipher, record, slice, Buffer_alloc0 in *.

(** One case per way a collaborator's call can end. *)
Ltac collaborator_cases :=
  repeat (match goal with
  | |- context [initSession ?x ?i ?p ?s ?rs ?h] =>
      destruct (initSession x i p s rs h) as [[?|?|] ?] eqn:?
  | |- context [sendMessage ?x ?s ?m ?h] =>
      destruct (sendMessage x s m h) as [[?|?|] ?] eqn:?
  | |- context [recvMessage ?x ?s ?m ?h] =>
      destruct (recvMessage x s m h) as [[?|?|] ?] eqn:?
  | |- context [readLP ?c ?x] =>
      destruct (readLP c x) as [[?|?|] ?] eqn:?
  | |- context [writeLP ?c ?d ?x] =>
      destruct (writeLP c d x) as [[[]|?|] ?] eqn:?
  | |- context [createHandshakePayload ?u ?pk ?sig ?ed ?sk] =>
      destruct (createHandshakePayload u pk sig ed sk) as [?|?|] eqn:?
  | |- context [encryptWithAd ?x ?st ?ad ?t] =>
      destruct (encryptWithAd x st ad t) as [[?|?|] ?] eqn:?
  | |- context [decryptWithAd ?x ?st ?ad ?t] =>
      destruct (decryptWithAd x st ad t) as [[?|?|] ?] eqn:?
  end; simpl).

(** One case per way [getCS] can go, then per outcome of the cipher. *)
Ltac cipher_cases w session :=
  destruct (sessions (heap w) !! session) as [[? [?|] [?|]]|]; simpl;
  try destruct (isInitiator (self w)); simpl;
  repeat (match goal with
  | |- context [ciphers ?h !! ?c] => destruct (ciphers h !! c) eqn:?
  end; simpl);
  collaborator_cases.

(** The log after a run, as the old log followed by a literal list. *)
Ltac tidy_log :=
  rewrite <- ?app_assoc; simpl;
  rewrite ?drop_app_length, ?drop_all; simpl.

(** Membership in a literal list of calls, one entry at a time. *)
Ltac log_mem H :=
  repeat match type of H with
  | _ ∈ [] => by apply elem_of_nil in H
  | _ ∈ _ :: _ => apply elem_of_cons in H as [H|H]; [try discriminate H|]
  end.

(** ** The object a method is called on *)

Lemma propose_self earlyData w : self (propose utils earlyData w).2 = self w.
Proof.
  unfold_driver; simpl. collaborator_cases; try reflexivity.
  all: destruct (isInitiator (self w)); simpl; collaborator_cases; reflexivity.
Qed.

Lemma exchange_self session w : self (exchange utils session w).2 = self w.
Proof.
  unfold_driver; simpl.
  destruct (isInitiator (self w)); simpl; collaborator_cases; reflexivity.
Qed.

Lemma finish_self session w : self (finish utils session w).2 = self w.
Proof.
  unfold_driver; simpl.
  destruct (isInitiator (self w)); simpl; collaborator_cases; reflexivity.
Qed.

Lemma encrypt_self plaintext session w : self (encrypt plaintext session w).2 = self w.
Proof. unfold_driver; simpl. cipher_cases w session; reflexivity. Qed.

Lemma decrypt_self ciphertext session w : self (decrypt ciphertext session w).2 = self w.
Proof. unfold_driver; simpl. cipher_cases w session; reflexivity. Qed.

Lemma world_after_self (m : Method) w : self (world_after utils m w) = self w.
Proof.
  destruct m; simpl;
    auto using propose_self, exchange_self, finish_self, encrypt_self, decrypt_self.
Qed.

(** The call log only grows: what a method leaves is the log it found
    followed by the calls it made. *)
Lemma world_after_log (m : Method) w :
  calls (world_after utils m w) = calls w ++ calls_since w (world_after utils m w).
Proof.
  destruct m; unfold_driver; simpl.
  - collaborator_cases; try (tidy_log; done).
    destruct (isInitiator (self w)); simpl; collaborator_cases; tidy_log; done.
  - destruct (isInitiator (self w)); simpl; collaborator_cases; tidy_log; done.
  - destruct (isInitiator (self w)); simpl; collaborator_cases; tidy_log; done.
  - cipher_cases w session; tidy_log; rewrite ?app_nil_r; done.
  - cipher_cases w session; tidy_log; rewrite ?app_nil_r; done.
Qed.

(** C9.  No method of the class assigns to a field of the object it is
    called on: after each of [propose], [exchange], [finish], [encrypt]
    and [decrypt], from any world and whatever the collaborators do,
    [isInitiator], [type], [remotePublicKey], [prologue], [staticKeys],
    [connection] and [xx] are what they were before the call. *)
Theorem methods_keep_fields (m : Method) w :
  let h := self w in
  let h' := self (world_after utils m w) in
  isInitiator h' = isInitiator h
  ∧ type h' = type h
  ∧ remotePublicKey h' = remotePublicKey h
  ∧ prologue h' = prologue h
  ∧ staticKeys h' = staticKeys h
  ∧ connection h' = connection h
  ∧ xx h' = xx h.
Proof. simpl. rewrite world_after_self. repeat split. Qed.

(** ** Stage 0 on the responder's side *)

(** C10.  When [isInitiator] is false, [propose] does not look at
    [earlyData]: for any two values of the argument (absent included) the
    call ends the same way, returns the same session and leaves the same
    world - same store, same connection, same calls, hence the same
    reads - and none of its calls is a [sendMessage] or a [writeLP]. *)
Theorem propose_responder_ignores_earlyData earlyData earlyData' w :
  isInitiator (self w) = false →
  propose utils earlyData w = propose utils earlyData' w
  ∧ Forall (λ c, is_send c = false ∧ is_write c = false)
      (calls_of (propose utils earlyData) w).
Proof.
  intros Hrole. unfold_driver; simpl. rewrite Hrole.
  collaborator_cases; rewrite ?Hrole; simpl; collaborator_cases.
  all: split; [reflexivity|]; tidy_log; repeat constructor.
Qed.

(** ** One framed message per stage *)

(** C6, as the driver has it.  A call to [propose], [exchange] or
    [finish] performs at most one length-framed transport operation,
    never a [readLP] and a [writeLP] and never two of either, and exactly
    one whenever the call returns.  The operation is a write when the
    initiator runs an even stage or the responder an odd one, and a read
    otherwise.  A reading stage has read once as soon as it had a session
    to read for, even if it fails afterwards. *)
Theorem stage_transport_operations (st : Stage) w :
  let h := self w in
  let ops := transport_ops (calls_of (run_stage utils st) w) in
  let writer := writes_at (isInitiator h) (stage_number st) in
  length ops ≤ 1
  ∧ Forall (λ c, is_write c = writer ∧ is_read c = negb writer) ops
  ∧ (returned (run_stage utils st w).1 = true → length ops = 1)
  ∧ (writer = false →
     (stage_number st = 0 →
      returned (initSession (xx h) (isInitiator h) (prologue h) (staticKeys h)
                  (remotePublicKey h) (heap w)).1 = true) →
     length ops = 1).
Proof.
  assert (Hgo : ∀ P : Prop, (0 = 0 → false = true) → P)
    by (intros P H; discriminate (H eq_refl)).
  destruct st; unfold_driver; simpl.
  - collaborator_cases.
    2,3: destruct (isInitiator (self w)); tidy_log;
         repeat split; try lia; try constructor; try done; eauto.
    destruct (isInitiator (self w)); simpl; collaborator_cases; tidy_log.
    all: repeat split; try lia; try done; repeat constructor; done.
  - destruct (isInitiator (self w)); simpl; collaborator_cases; tidy_log.
    all: repeat split; try lia; try done; repeat constructor; done.
  - destruct (isInitiator (self w)); simpl; collaborator_cases; tidy_log.
    all: repeat split; try lia; try done; repeat constructor; done.
Qed.

(** ** After the handshake: [encrypt] and [decrypt] *)

(** C4.  On a session whose [cs1] or [cs2] is absent, [encrypt] and
    [decrypt] both fail with the error of [getCS], whatever the text, and
    leave the world as it was: no call reaches [encryptWithAd] or
    [decryptWithAd], and no cipher state is touched. *)
Theorem incomplete_session_is_refused (text : bytes) session w
    (ns : NoiseSession HandshakeState) :
  sessions (heap w) !! session = Some ns →
  cs1 ns = None ∨ cs2 ns = None →
  encrypt text session w = (Throw HandshakeIncomplete, w)
  ∧ decrypt text session w = (Throw HandshakeIncomplete, w).
Proof.
  intros Hs Hcs. unfold_driver; simpl. rewrite Hs; simpl.
  destruct Hcs as [-> | ->]; [|destruct (cs1 ns)]; done.
Qed.

(** C5.  On a completed session, [encrypt] hands [cs1] to
    [encryptWithAd] when [isInitiator] is true and [cs2] when it is
    false; [decrypt] hands the other one to [decryptWithAd]: [cs2] for
    the initiator, [cs1] for the responder.  Each makes that one call,
    with empty associated data. *)
Theorem cipher_state_by_role (text : bytes) session w
    (ns : NoiseSession HandshakeState) (c1 c2 : cref) :
  sessions (heap w) !! session = Some ns →
  cs1 ns = Some c1 →
  cs2 ns = Some c2 →
  let mine := if isInitiator (self w) then c1 else c2 in
  let theirs := if isInitiator (self w) then c2 else c1 in
  encrypt text session w = do_encryptWithAd mine [] text w
  ∧ decrypt text session w = do_decryptWithAd theirs [] text w
  ∧ calls_of (encrypt text session) w = [CEncryptWithAd mine [] text]
  ∧ calls_of (decrypt text session) w = [CDecryptWithAd theirs [] text].
Proof.
  intros Hs H1 H2. unfold_driver; simpl. rewrite Hs, H1, H2; simpl.
  destruct (isInitiator (self w)); simpl.
  all: repeat (match goal with
       | |- context [ciphers ?h !! ?c] => destruct (ciphers h !! c) eqn:?
       end; simpl); collaborator_cases.
  all: tidy_log; done.
Qed.

(** C8.  [encrypt] and [decrypt] stay off the connection and off the
    session: for every world, session and text, none of their calls is a
    [readLP] or a [writeLP], the connection is left as it was, every
    session object keeps its content ([cs1] and [cs2] included), and the
    only cipher state object that can change is the one [getCS]
    selects. *)
Theorem encrypt_decrypt_frame (text : bytes) session w :
  let frame (encryption : bool) (w' : World) :=
    transport_ops (calls_since w w') = []
    ∧ wire w' = wire w
    ∧ sessions (heap w') = sessions (heap w)
    ∧ ∀ c, (getCS session encryption w).1 ≠ Return c →
           ciphers (heap w') !! c = ciphers (heap w) !! c in
  frame true (encrypt text session w).2
  ∧ frame false (decrypt text session w).2.
Proof.
  unfold_driver; simpl. split.
  all: cipher_cases w session; tidy_log.
  all: repeat split; try done.
  all: intros c' Hc'; rewrite lookup_insert_ne; [done | congruence].
Qed.

(** ** What the stages hand to their collaborators *)

(** The calls of the initiator's [propose], once [initSession] has
    returned the session: the payload of message 1 is the initiator's own
    identity payload, with the early data. *)
Lemma propose_initiator_calls earlyData w (ns : sref)
    (hp : Heap HandshakeState CipherState) :
  let h := self w in
  isInitiator h = true →
  initSession (xx h) true (prologue h) (staticKeys h) (remotePublicKey h) (heap w)
    = (Return ns, hp) →
  calls_of (propose utils earlyData) w =
    [ CInitSession true (prologue h) (staticKeys h) (remotePublicKey h);
      CGetHandshakePayload (publicKey (staticKeys h));
      CSignPayload (privateKey (staticKeys h))
        (getHandshakePayload utils (publicKey (staticKeys h)));
      CCreateHandshakePayload (publicKey (staticKeys h)) (own_signature utils h)
        earlyData (Some (privateKey (staticKeys h))) ]
    ++ match own_identity_payload utils h earlyData (Some (privateKey (staticKeys h))) with
       | Return payload =>
           CSendMessage ns payload
           :: calls_after_send utils w (sendMessage (xx h) ns payload hp).1
                "Stage 0 - Initiator finished proposing"
       | _ => []
       end.
Proof.
  simpl. intros Hrole Hinit.
  unfold calls_after_send, own_identity_payload, own_signature. unfold_driver; simpl.
  rewrite Hrole, Hinit; simpl. rewrite Hrole; simpl.
  collaborator_cases; tidy_log; reflexivity.
Qed.

(** The calls of the responder's [exchange]: the signature is the
    responder's own, and the key placed next to it in the payload is
    [remotePublicKey]. *)
Lemma exchange_responder_calls session w :
  let h := self w in
  isInitiator h = false →
  calls_of (exchange utils session) w =
    [ CGetHandshakePayload (publicKey (staticKeys h));
      CSignPayload (privateKey (staticKeys h))
        (getHandshakePayload utils (publicKey (staticKeys h)));
      CCreateHandshakePayload (remotePublicKey h) (own_signature utils h) None None ]
    ++ match createHandshakePayload utils (remotePublicKey h) (own_signature utils h)
               None None with
       | Return payload =>
           CSendMessage session payload
           :: calls_after_send utils w (sendMessage (xx h) session payload (heap w)).1
                "Stage 1 - Responder sent the message."
       | _ => []
       end.
Proof.
  simpl. intros Hrole. unfold calls_after_send, own_signature. unfold_driver; simpl.
  rewrite Hrole; simpl. collaborator_cases; tidy_log; reflexivity.
Qed.

(** C1, as the driver has it.  In [finish], when [isInitiator] is true,
    the payload handed to [sendMessage] for message 3 is the empty buffer.
    [finish] makes that call first and then, if it returned, encodes and
    writes the message and, the write done, logs a line; it signs nothing
    and builds no payload. *)
Theorem finish_initiator_sends_empty session w :
  isInitiator (self w) = true →
  calls_of (finish utils session) w =
    CSendMessage session Buffer_alloc0
    :: match (sendMessage (xx (self w)) session Buffer_alloc0 (heap w)).1 with
       | Return m =>
           CEncodeMessageBuffer m
           :: CWriteLP (encodeMessageBuffer utils m)
           :: match (writeLP (connection (self w)) (encodeMessageBuffer utils m)
                       (wire w)).1 with
              | Return _ => [ CLogger "Stage 2 - Initiator sent message." ]
              | _ => []
              end
       | _ => []
       end.
Proof.
  intros Hrole. unfold_driver; simpl. rewrite Hrole; simpl.
  collaborator_cases; tidy_log; reflexivity.
Qed.

(** C3, as the driver has it.  In [exchange], when [isInitiator] is true,
    message 2 is read, decoded and handed to [recvMessage], and the
    payload that comes back is dropped: no call checks its signature.
    The call ends as [readLP] ends if that does not return, and otherwise
    as [recvMessage] ends; it returns whenever [recvMessage] returns,
    whatever the payload. *)
Theorem exchange_initiator_drops_payload session w :
  let h := self w in
  isInitiator h = true →
  (exchange utils session w).1 =
    match readLP (connection h) (wire w) with
    | (Return received, _) =>
        after (recvMessage (xx h) session (decodeMessageBuffer utils received) (heap w)).1 tt
    | (Throw e, _) => Throw e
    | (Pending, _) => Pending
    end
  ∧ calls_of (exchange utils session) w =
      CReadLP
      :: match readLP (connection h) (wire w) with
         | (Return received, _) =>
             CDecodeMessageBuffer received
             :: CRecvMessage session (decodeMessageBuffer utils received)
             :: match (recvMessage (xx h) session (decodeMessageBuffer utils received)
                         (heap w)).1 with
                | Return _ => [ CLogger "Stage 1 - Initiator received the message." ]
                | _ => []
                end
         | _ => []
         end.
Proof.
  simpl. intros Hrole. unfold_driver; simpl. rewrite Hrole; simpl.
  collaborator_cases; tidy_log; split; reflexivity.
Qed.

(** C7.  Every [signPayload] call of [propose] and of [exchange] signs the
    encoding, by [getHandshakePayload], of the caller's own static public
    key, under the caller's own static private key.  The initiator makes
    that call in [propose] (once it has its session) and the responder in
    [exchange].  And [propose] returns the session that [initSession]
    created, in both roles: it returns that session as soon as the steps
    of its role return (the payload, [sendMessage] and the write for the
    initiator; the read and [recvMessage] for the responder), and ends as
    the first step that does not return otherwise. *)
Theorem signing_and_proposed_session earlyData session w :
  let h := self w in
  let own := CSignPayload (privateKey (staticKeys h))
               (getHandshakePayload utils (publicKey (staticKeys h))) in
  (∀ sk message,
     CSignPayload sk message
       ∈ calls_of (propose utils earlyData) w ++ calls_of (exchange utils session) w →
     CSignPayload sk message = own)
  ∧ (isInitiator h = false → own ∈ calls_of (exchange utils session) w)
  ∧ (∀ ns hp,
       initSession (xx h) (isInitiator h) (prologue h) (staticKeys h) (remotePublicKey h)
         (heap w) = (Return ns, hp) →
       (isInitiator h = true → own ∈ calls_of (propose utils earlyData) w)
       ∧ (propose utils earlyData w).1 =
           if isInitiator h then
             match own_identity_payload utils h earlyData
                     (Some (privateKey (staticKeys h))) with
             | Return payload =>
                 match sendMessage (xx h) ns payload hp with
                 | (Return m, _) =>
                     after (writeLP (connection h) (encodeMessageBuffer utils m) (wire w)).1 ns
                 | (Throw e, _) => Throw e
                 | (Pending, _) => Pending
                 end
             | Throw e => Throw e
             | Pending => Pending
             end
           else
             match readLP (connection h) (wire w) with
             | (Return received, _) =>
                 after (recvMessage (xx h) ns (decodeMessageBuffer utils received) hp).1 ns
             | (Throw e, _) => Throw e
             | (Pending, _) => Pending
             end).
Proof.
  simpl. split; [|split].
  - intros sk message H. apply elem_of_app in H as [H|H]; revert H.
    + unfold_driver; simpl. collaborator_cases.
      2,3: tidy_log; intros H; log_mem H.
      destruct (isInitiator (self w)); simpl; collaborator_cases; tidy_log.
      all: intros H; log_mem H; done.
    + unfold_driver; simpl.
      destruct (isInitiator (self w)); simpl; collaborator_cases; tidy_log.
      all: intros H; log_mem H; done.
  - intros Hrole. rewrite exchange_responder_calls by done.
    apply elem_of_app; left. set_solver.
  - intros ns hp Hinit. split.
    + intros Hrole. rewrite Hrole in Hinit.
      rewrite (propose_initiator_calls _ _ _ _ Hrole Hinit).
      apply elem_of_app; left. set_solver.
    + unfold own_identity_payload, own_signature. unfold_driver; simpl.
      rewrite Hinit; simpl.
      destruct (isInitiator (self w)); simpl; collaborator_cases; reflexivity.
Qed.

(** ** Beyond single calls *)

(** X1.  The object over any sequence of calls.  A [Handshake] keeps, through
    any number of calls to its five methods and whatever their outcomes,
    the values the constructor gave its fields; [xx] is the object passed
    to the constructor, or the new [XXHandshake] when none was passed. *)
Theorem constructed_fields_are_kept (ms : list Method) w
    (new_xx : XXHandshake HandshakeState CipherState MessageBuffer)
    (ty : handshakeType) (initiator : bool) (rpk pro : bytes) (sk : KeyPair)
    (conn : WrappedConnection Conn)
    (handshake : option (XXHandshake HandshakeState CipherState MessageBuffer)) :
  self w = constructor new_xx ty initiator rpk pro sk conn handshake →
  let h' := self (run_methods utils ms w) in
  isInitiator h' = initiator
  ∧ type h' = ty
  ∧ remotePublicKey h' = rpk
  ∧ prologue h' = pro
  ∧ staticKeys h' = sk
  ∧ connection h' = conn
  ∧ xx h' = match handshake with Some x => x | None => new_xx end.
Proof.
  intros Hnew. simpl.
  assert (Hkeep : self (run_methods utils ms w) = self w).
  { clear Hnew. revert w. induction ms as [|m ms IH]; intros w; simpl; [done|].
    rewrite IH. apply world_after_self. }
  rewrite Hkeep, Hnew. destruct handshake; repeat split.
Qed.

(** X2.  The plaintext of a received handshake message is not used.  Whatever
    is done to the plaintext that [recvMessage] returns, each of
    [propose], [exchange] and [finish], in either role, ends the same way
    and leaves the same store, connection and calls. *)
Theorem stages_ignore_received_plaintext (g : bytes → bytes) earlyData session w :
  let w' := set_self (set_xx (with_plaintext g (xx (self w))) (self w)) w in
  observe (propose utils earlyData w') = observe (propose utils earlyData w)
  ∧ observe (exchange utils session w') = observe (exchange utils session w)
  ∧ observe (finish utils session w') = observe (finish utils session w).
Proof.
  unfold observe, set_self, set_xx, with_plaintext. unfold_driver; simpl.
  split; [|split].
  - collaborator_cases; try reflexivity.
    all: destruct (isInitiator (self w)); simpl; collaborator_cases; reflexivity.
  - destruct (isInitiator (self w)); simpl; collaborator_cases; reflexivity.
  - destruct (isInitiator (self w)); simpl; collaborator_cases; reflexivity.
Qed.

(** X3.  What the later methods read of the object.  [finish], [encrypt],
    [decrypt] and the initiator's [exchange] read [isInitiator],
    [connection] and [xx] only: on two objects that agree on these three,
    whatever their keys, prologue and remote key, each ends the same way
    and leaves the same store, connection and calls. *)
Theorem later_methods_read_no_keys (h' : Handshake HandshakeState CipherState MessageBuffer Conn)
    (text : bytes) session w :
  same_wiring (self w) h' →
  let w' := set_self h' w in
  observe (finish utils session w') = observe (finish utils session w)
  ∧ observe (encrypt text session w') = observe (encrypt text session w)
  ∧ observe (decrypt text session w') = observe (decrypt text session w)
  ∧ (isInitiator (self w) = true →
     observe (exchange utils session w') = observe (exchange utils session w)).
Proof.
  intros (Hrole & Hconn & Hxx).
  destruct h' as [i' ty' rpk' pro' sk' conn' xx']; simpl in *; subst i' conn' xx'.
  unfold observe, set_self. unfold_driver; simpl.
  split; [|split; [|split]].
  - destruct (isInitiator (self w)); simpl; collaborator_cases; reflexivity.
  - cipher_cases w session; reflexivity.
  - cipher_cases w session; reflexivity.
  - intros ->; simpl; collaborator_cases; reflexivity.
Qed.

(** ** The connection and the store across a stage *)

(** X4.  A writing stage and the connection.  When the stage is the
    caller's turn to write, the connection is touched by the stage's one
    [writeLP] only.  If the call makes no transport call, the connection
    is as before and the call has not returned.  Any [writeLP] it makes
    carries the encoding of the message [sendMessage] returned for the
    stage's session; the connection is then as that [writeLP] left it,
    the store as [sendMessage] left it, and the stage ends as the
    [writeLP] ends.  A stage that returns has made that one write. *)
Theorem writing_stage_connection (st : Stage) w :
  writes_at (isInitiator (self w)) (stage_number st) = true →
  let h := self w in
  let r := run_stage utils st w in
  let made := calls_of (run_stage utils st) w in
  (transport_ops made = [] → wire r.2 = wire w ∧ returned r.1 = false)
  ∧ (∀ data, CWriteLP data ∈ made →
       ∃ session payload hp m,
         sendMessage (xx h) session payload hp = (Return m, heap r.2)
         ∧ stage_session st w = Return session
         ∧ data = encodeMessageBuffer utils m
         ∧ wire r.2 = (writeLP (connection h) data (wire w)).2
         ∧ r.1 = after (writeLP (connection h) data (wire w)).1 tt)
  ∧ (returned r.1 = true → ∃ data, transport_ops made = [CWriteLP data]).
Proof.
  intros Hturn; simpl.
  destruct st; unfold stage_session; unfold_driver; simpl in *;
    destruct (isInitiator (self w)) eqn:Hrole; simpl in Hturn; try discriminate Hturn.
  all: simpl; collaborator_cases; rewrite ?Hrole; simpl; collaborator_cases; tidy_log.
  all: split; [|split].
  all: try (intros Hops; first [discriminate Hops | done]).
  all: try (intros Hr; first [discriminate Hr | eexists; reflexivity]).
  all: intros data Hin; log_mem Hin; simplify_eq.
  all: do 4 eexists; repeat split; eauto.
  all: match goal with H : writeLP _ _ _ = _ |- _ => rewrite H end; reflexivity.
Qed.

(** X5.  A reading [exchange] or [finish].  When the stage is the caller's
    turn to read, it leaves the connection as its one [readLP] left it -
    the message is consumed even if [recvMessage] then rejects it - and
    hands [recvMessage] the decoding of exactly the bytes read, on the
    session it was given.  It ends as [readLP] ends if that does not
    return, and as [recvMessage] ends otherwise; the store is as
    [recvMessage] left it. *)
Theorem reading_stage_run (st : Stage) session w :
  st = Exchange session ∨ st = Finish session →
  writes_at (isInitiator (self w)) (stage_number st) = false →
  let h := self w in
  let r := run_stage utils st w in
  wire r.2 = (readLP (connection h) (wire w)).2
  ∧ match (readLP (connection h) (wire w)).1 with
    | Return received =>
        let rv := recvMessage (xx h) session (decodeMessageBuffer utils received) (heap w) in
        r.1 = after rv.1 tt
        ∧ heap r.2 = rv.2
        ∧ CRecvMessage session (decodeMessageBuffer utils received)
            ∈ calls_of (run_stage utils st) w
    | Throw e => r.1 = Throw e ∧ heap r.2 = heap w
    | Pending => r.1 = Pending ∧ heap r.2 = heap w
    end.
Proof.
  intros [-> | ->] Hturn; unfold_driver; simpl in *;
    destruct (isInitiator (self w)); simpl in Hturn; try discriminate Hturn; simpl.
  all: collaborator_cases; tidy_log; repeat split; set_solver.
Qed.

(** X6.  The stages have no error of their own.  If [propose], [exchange] or
    [finish] throws, the error is one that [initSession],
    [createHandshakePayload], [sendMessage], [writeLP], [recvMessage] or
    [readLP] threw. *)
Theorem stage_errors_come_from_collaborators (st : Stage) w (e : Error) :
  (run_stage utils st w).1 = Throw e →
  let h := self w in
  (∃ hp', initSession (xx h) (isInitiator h) (prologue h) (staticKeys h)
            (remotePublicKey h) (heap w) = (Throw e, hp'))
  ∨ (∃ pk signedPayload earlyData sk,
       createHandshakePayload utils pk signedPayload earlyData sk = Throw e)
  ∨ (∃ session payload hp hp', sendMessage (xx h) session payload hp = (Throw e, hp'))
  ∨ (∃ data c c', writeLP (connection h) data c = (Throw e, c'))
  ∨ (∃ session m hp hp', recvMessage (xx h) session m hp = (Throw e, hp'))
  ∨ (∃ c', readLP (connection h) (wire w) = (Throw e, c')).
Proof.
  simpl. intros H; revert H.
  destruct st; unfold_driver; simpl; destruct (isInitiator (self w)) eqn:Hrole; simpl.
  all: collaborator_cases; rewrite ?Hrole; simpl; collaborator_cases.
  all: intros H; first [discriminate H | injection H as <-; eauto 15].
Qed.

(** X7.  The calls a stage makes into [./xx].  A stage passes to [sendMessage]
    or [recvMessage] no session but its own - the one it was given, or,
    for [propose], the one [initSession] just returned - and makes at
    most one such call: a [sendMessage] only when it is its turn to
    write, a [recvMessage] only when it is its turn to read.
    [initSession] is called by [propose] only, and no stage calls
    [encryptWithAd] or [decryptWithAd]. *)
Theorem stage_calls_into_xx (st : Stage) w :
  Forall (xx_call_fits st w) (calls_of (run_stage utils st) w)
  ∧ length (List.filter is_message (calls_of (run_stage utils st) w)) ≤ 1.
Proof.
  destruct st; unfold xx_call_fits, stage_session; unfold_driver; simpl.
  - collaborator_cases.
    2,3: tidy_log; split; [repeat constructor | lia].
    destruct (isInitiator (self w)); simpl; collaborator_cases; tidy_log.
    all: split; [repeat constructor | lia].
  - destruct (isInitiator (self w)); simpl; collaborator_cases; tidy_log.
    all: split; [repeat constructor | lia].
  - destruct (isInitiator (self w)); simpl; collaborator_cases; tidy_log.
    all: split; [repeat constructor | lia].
Qed.

(** X8.  The line a stage logs.  A stage logs one line, as its last call, when
    it returns, and none when it does not: a line in the log means the
    stage went through.  [encrypt] and [decrypt] log nothing. *)
Theorem stage_logs_on_completion (st : Stage) (text : bytes) session w :
  let made := calls_of (run_stage utils st) w in
  (if returned (run_stage utils st w).1
   then ∃ line, last made = Some (CLogger line) ∧ length (List.filter is_log made) = 1
   else List.filter is_log made = [])
  ∧ List.filter is_log (calls_of (encrypt text session) w) = []
  ∧ List.filter is_log (calls_of (decrypt text session) w) = [].
Proof.
  simpl. split; [|split].
  - destruct st; unfold_driver; simpl.
    + collaborator_cases; try (tidy_log; done).
      destruct (isInitiator (self w)); simpl; collaborator_cases; tidy_log; eauto.
    + destruct (isInitiator (self w)); simpl; collaborator_cases; tidy_log; eauto.
    + destruct (isInitiator (self w)); simpl; collaborator_cases; tidy_log; eauto.
  - unfold_driver; simpl. cipher_cases w session; tidy_log; done.
  - unfold_driver; simpl. cipher_cases w session; tidy_log; done.
Qed.

(** X9.  [propose] begins with the session.  In either role the first call of
    [propose] is [initSession], on the object's own [isInitiator],
    [prologue], [staticKeys] and [remotePublicKey], in this order.  If
    that call does not return, [propose] ends the same way and has done
    nothing else: nothing is signed, the connection is untouched. *)
Theorem propose_begins_with_initSession earlyData w :
  let h := self w in
  let init := initSession (xx h) (isInitiator h) (prologue h) (staticKeys h)
                (remotePublicKey h) (heap w) in
  let first := CInitSession (isInitiator h) (prologue h) (staticKeys h) (remotePublicKey h) in
  ∃ others,
    calls_of (propose utils earlyData) w = first :: others
    ∧ (returned init.1 = false →
       others = []
       ∧ (propose utils earlyData w).1 = init.1
       ∧ heap (propose utils earlyData w).2 = init.2
       ∧ wire (propose utils earlyData w).2 = wire w).
Proof.
  simpl. unfold_driver; simpl. collaborator_cases.
  2,3: tidy_log; eexists; split; [reflexivity|]; done.
  destruct (isInitiator (self w)); simpl; collaborator_cases; tidy_log.
  all: eexists; split; [reflexivity|]; intros Hr; discriminate Hr.
Qed.

(** ** [encrypt] and [decrypt] together *)

(** X10.  The two directions do not disturb each other.  On a session whose
    [cs1] and [cs2] are two different objects, [encrypt] and [decrypt]
    can be called in either order: each ends as it would have ended had
    it been called first, and the store and the connection are the same
    after both. *)
Theorem encrypt_decrypt_commute (plaintext ciphertext : bytes) session w
    (ns : NoiseSession HandshakeState) (c1 c2 : cref) :
  sessions (heap w) !! session = Some ns →
  cs1 ns = Some c1 →
  cs2 ns = Some c2 →
  c1 ≠ c2 →
  let enc_dec := decrypt ciphertext session (encrypt plaintext session w).2 in
  let dec_enc := encrypt plaintext session (decrypt ciphertext session w).2 in
  dec_enc.1 = (encrypt plaintext session w).1
  ∧ enc_dec.1 = (decrypt ciphertext session w).1
  ∧ heap enc_dec.2 = heap dec_enc.2
  ∧ wire enc_dec.2 = wire dec_enc.2.
Proof.
  intros Hs H1 H2 Hne. unfold_driver; simpl. rewrite Hs, H1, H2; simpl.
  destruct (isInitiator (self w)) eqn:Hrole; simpl.
  all: destruct (ciphers (heap w) !! c1) eqn:Hc1;
       destruct (ciphers (heap w) !! c2) eqn:Hc2; simpl;
       collaborator_cases; rewrite ?Hs, ?H1, ?H2; simpl; rewrite ?Hrole; simpl;
       rewrite ?lookup_insert_ne by done; rewrite ?Hc1, ?Hc2; simpl;
       collaborator_cases.
  all: simplify_eq; repeat split; try congruence.
  all: f_equal; apply insert_insert_ne; congruence.
Qed.

(** X11.  Calls in one direction follow one another on the same cipher state
    object.  On a completed session, a second [encrypt] works on the
    state the first one left in the store, not on the state from before:
    it ends as [encryptWithAd] ends on that state, and leaves the state
    that call produced. *)
Theorem encrypt_twice_threads_state (p1 p2 : bytes) session w
    (ns : NoiseSession HandshakeState) (c1 c2 : cref) (st : CipherState) :
  sessions (heap w) !! session = Some ns →
  cs1 ns = Some c1 →
  cs2 ns = Some c2 →
  let mine := if isInitiator (self w) then c1 else c2 in
  ciphers (heap w) !! mine = Some st →
  let first := encryptWithAd (xx (self w)) st [] p1 in
  let second := encryptWithAd (xx (self w)) first.2 [] p2 in
  let r := encrypt p2 session (encrypt p1 session w).2 in
  r.1 = second.1
  ∧ ciphers (heap r.2) !! mine = Some second.2
  ∧ calls_since w r.2 = [CEncryptWithAd mine [] p1; CEncryptWithAd mine [] p2].
Proof.
  intros Hs H1 H2; simpl. unfold_driver; simpl. rewrite Hs, H1, H2; simpl.
  destruct (isInitiator (self w)) eqn:Hrole; simpl; intros Hc; rewrite Hc; simpl.
  all: collaborator_cases; rewrite ?Hs, ?H1, ?H2; simpl; rewrite ?Hrole; simpl;
       rewrite ?lookup_insert_eq; simpl; collaborator_cases.
  all: simplify_eq; tidy_log; rewrite ?insert_insert_eq, ?lookup_insert_eq; done.
Qed.

(** ** The three stages in a row *)

(** X12.  The stages alternate on the connection.  When a caller runs
    [propose], [exchange] and [finish] in order on one object, the
    transport operations made are, in order, write-read-write for the
    initiator and read-write-read for the responder: all three when the
    run returns, and a beginning of that sequence when a stage stops it.
    Every [sendMessage] and [recvMessage] of the run is on the session
    [propose] returned. *)
Theorem three_stages_alternate earlyData w :
  let made := calls_of (three_stages utils earlyData) w in
  let directions := is_write <$> transport_ops made in
  directions `prefix_of` turns (isInitiator (self w))
  ∧ (∀ session,
       (three_stages utils earlyData w).1 = Return session →
       directions = turns (isInitiator (self w))
       ∧ Forall (λ c, match c with
                      | CSendMessage s _ | CRecvMessage s _ => s = session
                      | _ => True
                      end) made).
Proof.
  unfold three_stages, turns. unfold_driver; simpl.
  destruct (isInitiator (self w)) eqn:Hrole; simpl.
  all: repeat (progress (collaborator_cases; rewrite ?Hrole; simpl)).
  all: tidy_log; split; [by eexists|].
  all: intros session Hr; try discriminate Hr; injection Hr as <-.
  all: split; [reflexivity | repeat constructor].
Qed.

End Properties.

(** * Concrete runs *)

Import Toy.

(** The initiator's three stages against a responder that answers with
    a well-formed message 2: one write, one read, one write, and the
    session is usable afterwards. *)
Example initiator_run_completes :
  let r := initiator_run [x05] (start true alice [] [good_payload]) in
  r.1 = Return [x05]
  ∧ transport_ops r.2.(calls)
    = [ CWriteLP (publicKey alice
                  ++ toy_sign (privateKey alice) (domain_prefix ++ publicKey alice));
        CReadLP;
        CWriteLP [] ]
  ∧ sessions (heap r.2) !! 0 = Some {| hs := 3; cs1 := Some 0; cs2 := Some 1 |}
  ∧ ciphers (heap r.2) !! 0 = Some {| k := [x01]; n := 1 |}.
Proof. vm_compute. done. Qed.

(** C1: a run of [finish] that refutes the reading under which message 3
    carries the initiator's identity.  The initiator, two messages into
    the handshake, calls [finish]: nothing is signed, and the payload
    handed to [sendMessage] is empty. *)
Lemma finish_initiator_counterexample :
  ¬ finish_attaches_identity toy_utils 0 (midway true alice (publicKey bob) 2 []).
Proof.
  intros (earlyData & sk & payload & Hpayload & Hsent).
  assert (Hcalls : calls_of (finish toy_utils 0) (midway true alice (publicKey bob) 2 [])
                   = [ CSendMessage 0 []; CEncodeMessageBuffer []; CWriteLP [];
                       CLogger "Stage 2 - Initiator sent message." ])
    by (vm_compute; reflexivity).
  rewrite Hcalls in Hsent.
  apply elem_of_cons in Hsent as [Hsent|Hsent].
  - (* the identity payload starts with the two bytes of the key *)
    injection Hsent as ->. discriminate Hpayload.
  - repeat (apply elem_of_cons in Hsent as [Hsent|Hsent]; [discriminate Hsent|]).
    by apply elem_of_nil in Hsent.
Qed.

(** The same run through the statement of the driver's behaviour. *)
Lemma finish_initiator_sends_empty_witness :
  isInitiator (self (midway true alice (publicKey bob) 2 [])) = true
  ∧ calls_of (finish toy_utils 0) (midway true alice (publicKey bob) 2 [])
    = [ CSendMessage 0 []; CEncodeMessageBuffer []; CWriteLP [];
        CLogger "Stage 2 - Initiator sent message." ].
Proof.
  split; [reflexivity|].
  apply (finish_initiator_sends_empty toy_utils 0 (midway true alice (publicKey bob) 2 [])).
  reflexivity.
Defined.

(** C2: the responder's [exchange] at a concrete input.  [bob] answers
    [alice]: the signature is [bob]'s, over [bob]'s key, but the key
    placed in the payload is [alice]'s, the remote one.  What goes out is
    not [bob]'s identity payload, and it fails the signature check that
    [bob]'s identity payload passes. *)
Theorem exchange_responder_embeds_remote_key :
  let w := midway false bob (publicKey alice) 1 [] in
  let h := self w in
  let sent := publicKey alice ++ own_signature toy_utils h in
  let own := publicKey (staticKeys h) ++ own_signature toy_utils h in
  publicKey alice ≠ publicKey (staticKeys h)
  ∧ CCreateHandshakePayload (publicKey alice) (own_signature toy_utils h) None None
      ∈ calls_of (exchange toy_utils 0) w
  ∧ outgoing (wire (exchange toy_utils 0 w).2) = [sent]
  ∧ own_identity_payload toy_utils h None None = Return own
  ∧ sent ≠ own
  ∧ payload_signature_ok sent = false
  ∧ payload_signature_ok own = true.
Proof.
  simpl. split; [discriminate|]. split.
  - rewrite exchange_responder_calls by reflexivity.
    apply elem_of_app; left. set_solver.
  - repeat split; try (vm_compute; reflexivity). discriminate.
Qed.

(** C3: a run of [exchange] that refutes the reading under which the
    initiator checks message 2.  The message read carries a signature
    made over another key; the toy check rejects it; [exchange]
    returns. *)
Lemma exchange_initiator_counterexample :
  ¬ exchange_verifies_identity toy_utils payload_signature_ok 0
      (midway true alice (publicKey bob) 1 [forged_payload]).
Proof.
  intros H.
  specialize (H forged_payload _ forged_payload _ eq_refl eq_refl eq_refl eq_refl).
  vm_compute in H. discriminate H.
Qed.

(** The same run through the statement of the driver's behaviour. *)
Lemma exchange_initiator_drops_payload_witness :
  isInitiator (self (midway true alice (publicKey bob) 1 [forged_payload])) = true
  ∧ payload_signature_ok forged_payload = false
  ∧ (exchange toy_utils 0 (midway true alice (publicKey bob) 1 [forged_payload])).1
    = Return tt
  ∧ calls_of (exchange toy_utils 0) (midway true alice (publicKey bob) 1 [forged_payload])
    = [ CReadLP; CDecodeMessageBuffer forged_payload; CRecvMessage 0 forged_payload;
        CLogger "Stage 1 - Initiator received the message." ].
Proof.
  split; [reflexivity|]. split; [reflexivity|].
  apply (exchange_initiator_drops_payload toy_utils 0
           (midway true alice (publicKey bob) 1 [forged_payload])).
  reflexivity.
Defined.

(** The refusal, at a session two messages into the handshake. *)
Lemma incomplete_session_is_refused_witness :
  sessions (heap (midway true alice (publicKey bob) 2 [])) !! 0
    = Some {| hs := 2; cs1 := None; cs2 := None |}
  ∧ encrypt [x05] 0 (midway true alice (publicKey bob) 2 [])
    = (Throw HandshakeIncomplete, midway true alice (publicKey bob) 2 [])
  ∧ decrypt [x05] 0 (midway true alice (publicKey bob) 2 [])
    = (Throw HandshakeIncomplete, midway true alice (publicKey bob) 2 []).
Proof.
  split; [reflexivity|].
  apply (incomplete_session_is_refused [x05] 0 (midway true alice (publicKey bob) 2 [])
           {| hs := 2; cs1 := None; cs2 := None |}).
  - reflexivity.
  - left; reflexivity.
Defined.

(** The selection at a completed session, for the initiator and for the responder. *)
Lemma cipher_state_by_role_witness :
  calls_of (encrypt [x05] 0) (completed true) = [CEncryptWithAd 0 [] [x05]]
  ∧ calls_of (decrypt [x05] 0) (completed true) = [CDecryptWithAd 1 [] [x05]]
  ∧ calls_of (encrypt [x05] 0) (completed false) = [CEncryptWithAd 1 [] [x05]]
  ∧ calls_of (decrypt [x05] 0) (completed false) = [CDecryptWithAd 0 [] [x05]].
Proof.
  pose proof (cipher_state_by_role [x05] 0 (completed true)
                {| hs := 3; cs1 := Some 0; cs2 := Some 1 |} 0 1
                eq_refl eq_refl eq_refl) as (_ & _ & He & Hd).
  pose proof (cipher_state_by_role [x05] 0 (completed false)
                {| hs := 3; cs1 := Some 0; cs2 := Some 1 |} 0 1
                eq_refl eq_refl eq_refl) as (_ & _ & He' & Hd').
  exact (conj He (conj Hd (conj He' Hd'))).
Defined.

(** A responder with one message waiting, without and with early data. *)
Lemma propose_responder_ignores_earlyData_witness :
  isInitiator (self (start false bob [] [[x01]])) = false
  ∧ propose toy_utils None (start false bob [] [[x01]])
    = propose toy_utils (Some [x09]) (start false bob [] [[x01]])
  ∧ Forall (λ c, is_send c = false ∧ is_write c = false)
      (calls_of (propose toy_utils None) (start false bob [] [[x01]])).
Proof.
  split; [reflexivity|].
  apply (propose_responder_ignores_earlyData toy_utils None (Some [x09])
           (start false bob [] [[x01]])).
  reflexivity.
Defined.

(** C6: a call that makes no transport operation.  The initiator calls
    [finish] on a session that has already processed its three messages:
    [sendMessage] throws, and the write is never reached. *)
Lemma stage_transport_counterexample :
  ¬ makes_one_transport_operation toy_utils (Finish 0) (midway true alice [] 3 []).
Proof.
  unfold makes_one_transport_operation.
  assert (Hcalls : calls_of (run_stage toy_utils (Finish 0)) (midway true alice [] 3 [])
                   = [CSendMessage 0 []])
    by (vm_compute; reflexivity).
  rewrite Hcalls. simpl. discriminate.
Qed.

(** One operation at each of the three stages of the initiator. *)
Lemma stage_transport_operations_witness :
  length (transport_ops (calls_of (run_stage toy_utils (Propose None))
                           (start true alice [] []))) = 1
  ∧ length (transport_ops (calls_of (run_stage toy_utils (Exchange 0))
                             (midway true alice [] 1 [good_payload]))) = 1
  ∧ length (transport_ops (calls_of (run_stage toy_utils (Finish 0))
                             (midway true alice [] 2 []))) = 1.
Proof.
  pose proof (stage_transport_operations toy_utils (Propose None)
                (start true alice [] [])) as (_ & _ & H0 & _).
  pose proof (stage_transport_operations toy_utils (Exchange 0)
                (midway true alice [] 1 [good_payload])) as (_ & _ & H1 & _).
  pose proof (stage_transport_operations toy_utils (Finish 0)
                (midway true alice [] 2 [])) as (_ & _ & H2 & _).
  exact (conj (H0 eq_refl) (conj (H1 eq_refl) (H2 eq_refl))).
Defined.

(** The signature of the responder's [exchange], and the session of [propose] in both roles. *)
Lemma signing_and_proposed_session_witness :
  CSignPayload (privateKey bob) (domain_prefix ++ publicKey bob)
    ∈ calls_of (exchange toy_utils 0) (midway false bob (publicKey alice) 1 [])
  ∧ (propose toy_utils None (start true alice [] [])).1 = Return 0
  ∧ (propose toy_utils None (start false bob [] [[x01]])).1 = Return 0.
Proof.
  pose proof (signing_and_proposed_session toy_utils None 0
                (midway false bob (publicKey alice) 1 [])) as (_ & Hsign & _).
  pose proof (signing_and_proposed_session toy_utils None 0
                (start true alice [] [])) as (_ & _ & Ha).
  pose proof (signing_and_proposed_session toy_utils None 0
                (start false bob [] [[x01]])) as (_ & _ & Hb).
  destruct (Ha 0 _ eq_refl) as [_ Ha'].
  destruct (Hb 0 _ eq_refl) as [_ Hb'].
  exact (conj (Hsign eq_refl) (conj Ha' Hb')).
Defined.

(** ** Runs for the properties beyond single calls *)

(** An initiator built with the default [XXHandshake], after a whole
    handshake and one [encrypt]. *)
Lemma constructed_fields_are_kept_witness :
  self (start true alice [] [good_payload])
    = constructor toy_xx XX true [] [] alice toy_connection None
  ∧ xx (self (run_methods toy_utils
                [MPropose None; MExchange 0; MFinish 0; MEncrypt [x05] 0]
                (start true alice [] [good_payload]))) = toy_xx
  ∧ xx (self (run_methods toy_utils [MPropose None; MFinish 0] (start_broken true [])))
    = broken_xx.
Proof.
  split; [reflexivity|].
  pose proof (constructed_fields_are_kept toy_utils
                [MPropose None; MExchange 0; MFinish 0; MEncrypt [x05] 0]
                (start true alice [] [good_payload])
                toy_xx XX true [] [] alice toy_connection None eq_refl)
    as (_ & _ & _ & _ & _ & _ & Hdefault).
  pose proof (constructed_fields_are_kept toy_utils [MPropose None; MFinish 0]
                (start_broken true [])
                toy_xx XX true [] [] alice toy_connection (Some broken_xx) eq_refl)
    as (_ & _ & _ & _ & _ & _ & Hgiven).
  exact (conj Hdefault Hgiven).
Defined.

(** [finish] on [alice]'s object and on one that holds [bob]'s keys, a
    prologue and a remote key. *)
Lemma later_methods_read_no_keys_witness :
  same_wiring (self (midway true alice [] 2 []))
    (constructor toy_xx XX true [x09] [x07] bob toy_connection None)
  ∧ observe (finish toy_utils 0
               (set_self (constructor toy_xx XX true [x09] [x07] bob toy_connection None)
                  (midway true alice [] 2 [])))
    = observe (finish toy_utils 0 (midway true alice [] 2 [])).
Proof.
  assert (Hsame : same_wiring (self (midway true alice [] 2 []))
                    (constructor toy_xx XX true [x09] [x07] bob toy_connection None))
    by (repeat split).
  split; [exact Hsame|].
  exact (proj1 (later_methods_read_no_keys toy_utils _ [] 0 _ Hsame)).
Defined.

(** The initiator's [finish]: on a session that has already split, on a
    connection that refuses the write, and on a session ready for
    message 3. *)
Lemma writing_stage_connection_witness :
  writes_at (isInitiator (self (midway true alice [] 2 []))) (stage_number (Finish 0)) = true
  ∧ wire (run_stage toy_utils (Finish 0) (midway true alice [] 3 [])).2
    = wire (midway true alice [] 3 [])
  ∧ (run_stage toy_utils (Finish 0) (midway_closed 2)).1 = Throw (JsError "stream closed")
  ∧ ∃ data, transport_ops (calls_of (run_stage toy_utils (Finish 0))
                             (midway true alice [] 2 [])) = [CWriteLP data].
Proof.
  split; [reflexivity|].
  pose proof (writing_stage_connection toy_utils (Finish 0) (midway true alice [] 3 [])
                eq_refl) as (Hnone & _ & _).
  pose proof (writing_stage_connection toy_utils (Finish 0) (midway_closed 2)
                eq_refl) as (_ & Hwrite & _).
  pose proof (writing_stage_connection toy_utils (Finish 0) (midway true alice [] 2 [])
                eq_refl) as (_ & _ & Hdone).
  split; [exact (proj1 (Hnone eq_refl))|]. split; [|exact (Hdone eq_refl)].
  assert (Hin : CWriteLP [] ∈ calls_of (run_stage toy_utils (Finish 0)) (midway_closed 2))
    by (apply (list_elem_of_lookup_2 _ 2); reflexivity).
  destruct (Hwrite [] Hin) as (session & payload & hp & m & _ & _ & _ & _ & Hout).
  exact Hout.
Defined.

(** The responder's [finish] on a session that has already split: the
    message is read and consumed, and the call throws what [recvMessage]
    throws. *)
Lemma reading_stage_run_witness :
  writes_at (isInitiator (self (midway false bob [] 3 [[x01]]))) (stage_number (Finish 0))
    = false
  ∧ incoming (wire (run_stage toy_utils (Finish 0) (midway false bob [] 3 [[x01]])).2) = []
  ∧ (run_stage toy_utils (Finish 0) (midway false bob [] 3 [[x01]])).1
    = Throw (JsError "Session invalid.").
Proof.
  split; [reflexivity|].
  pose proof (reading_stage_run toy_utils (Finish 0) 0 (midway false bob [] 3 [[x01]])
                (or_intror eq_refl) eq_refl) as [Hwire Hrest].
  split.
  - exact (f_equal incoming Hwire).
  - exact (proj1 Hrest).
Defined.

(** The initiator's [finish] on a connection that refuses the write
    throws the error of [writeLP]. *)
Lemma stage_errors_come_from_collaborators_witness :
  (run_stage toy_utils (Finish 0) (midway_closed 2)).1 = Throw (JsError "stream closed")
  ∧ ((∃ hp', initSession toy_xx true [] alice [] (heap (midway_closed 2))
               = (Throw (JsError "stream closed"), hp'))
     ∨ (∃ pk signedPayload earlyData sk,
          createHandshakePayload toy_utils pk signedPayload earlyData sk
            = Throw (JsError "stream closed"))
     ∨ (∃ session payload hp hp',
          sendMessage toy_xx session payload hp = (Throw (JsError "stream closed"), hp'))
     ∨ (∃ data c c',
          writeLP closed_connection data c = (Throw (JsError "stream closed"), c'))
     ∨ (∃ session m hp hp',
          recvMessage toy_xx session m hp = (Throw (JsError "stream closed"), hp'))
     ∨ (∃ c', readLP closed_connection (wire (midway_closed 2))
                = (Throw (JsError "stream closed"), c'))).
Proof.
  split; [reflexivity|].
  exact (stage_errors_come_from_collaborators toy_utils (Finish 0)
           (midway_closed 2) (JsError "stream closed") eq_refl).
Defined.

(** Both orders on the completed session of the initiator. *)
Lemma encrypt_decrypt_commute_witness :
  (encrypt [x05] 0 (decrypt [x06] 0 (completed true)).2).1 = Return [x05]
  ∧ (decrypt [x06] 0 (encrypt [x05] 0 (completed true)).2).1 = Return [x06]
  ∧ heap (decrypt [x06] 0 (encrypt [x05] 0 (completed true)).2).2
    = heap (encrypt [x05] 0 (decrypt [x06] 0 (completed true)).2).2.
Proof.
  pose proof (encrypt_decrypt_commute [x05] [x06] 0 (completed true)
                {| hs := 3; cs1 := Some 0; cs2 := Some 1 |} 0 1
                eq_refl eq_refl eq_refl) as H.
  destruct (H ltac:(discriminate)) as (He & Hd & Hheap & _).
  exact (conj He (conj Hd Hheap)).
Defined.

(** Two [encrypt] calls of the initiator: the counter of [cs1] has moved
    twice. *)
Lemma encrypt_twice_threads_state_witness :
  ciphers (heap (encrypt [x06] 0 (encrypt [x05] 0 (completed true)).2).2) !! 0
    = Some {| k := [x01]; n := 2 |}
  ∧ calls_since (completed true) (encrypt [x06] 0 (encrypt [x05] 0 (completed true)).2).2
    = [CEncryptWithAd 0 [] [x05]; CEncryptWithAd 0 [] [x06]].
Proof.
  pose proof (encrypt_twice_threads_state [x05] [x06] 0 (completed true)
                {| hs := 3; cs1 := Some 0; cs2 := Some 1 |} 0 1 {| k := [x01]; n := 0 |}
                eq_refl eq_refl eq_refl eq_refl) as (_ & Hstate & Hcalls).
  exact (conj Hstate Hcalls).
Defined.

(** [propose] on an object whose [XXHandshake] cannot make a session. *)
Lemma propose_begins_with_initSession_witness :
  calls_of (propose toy_utils None) (start_broken true [])
    = [CInitSession true [] alice []]
  ∧ (propose toy_utils None (start_broken true [])).1 = Throw (JsError "no session")
  ∧ wire (propose toy_utils None (start_broken true [])).2 = wire (start_broken true []).
Proof.
  destruct (propose_begins_with_initSession toy_utils None (start_broken true []))
    as (others & Hcalls & Hfail).
  destruct (Hfail eq_refl) as (-> & Hout & _ & Hwire).
  exact (conj Hcalls (conj Hout Hwire)).
Defined.

(** The whole handshake of the initiator, and one of the responder that
    stops at its second read. *)
Lemma three_stages_alternate_witness :
  is_write <$> transport_ops (calls_of (three_stages toy_utils None)
                                (start true alice [] [good_payload]))
    = [true; false; true]
  ∧ is_write <$> transport_ops (calls_of (three_stages toy_utils None)
                                  (start false bob [] [[x01]]))
    `prefix_of` [false; true; false].
Proof.
  pose proof (three_stages_alternate toy_utils None (start true alice [] [good_payload]))
    as [_ Hdone].
  pose proof (three_stages_alternate toy_utils None (start false bob [] [[x01]]))
    as [Hpre _].
  exact (conj (proj1 (Hdone 0 eq_refl)) Hpre).
Defined.
